(** * Camden strategy presentation (app.py): the two aggregation pipelines

    The page script computes two tables with pandas:

    - section 8 (lines 894-985): incidents grouped by location, the twenty
      locations with the largest totals, and the original rows of those
      locations;
    - section 7 (lines 743-845): the table of legal imports, with one extra
      row for the illicit market when the session flag
      [reveal_drug_market] is set, sorted by value, largest first.

    Before them the script checks its files, loads [data.csv] and its
    images, and inlines one image as Base64 (lines 14, 96-152, 679-718).

    Part I embeds the pandas expressions and the script's control flow.
    Part II proves the properties.

    Modelling notes.
    - A data frame is the list of its rows in order.  [Location] and
      [Category] are strings and [Count] is an integer, as the data model
      of the specification types them; sums are taken in [Z].  Rows with
      an empty cell, which pandas reads as NaN, are outside this model.
    - [Value] holds the decimal literals of the script ([8.7], [1.3], ...)
      as rationals.  The script only orders them, and reading each literal
      as the nearest binary float keeps their order and their equalities.
    - [sort_values] is called with pandas' default [kind='quicksort'].
      pandas documents that kind as not stable, so the sort is a parameter
      of the model: a function that returns the rows it was given, ordered
      by the key.  [stable_sort] (what [kind='stable'] computes) and
      [tie_reversing_sort] are two instances.
    - Files are a map from paths to bytes.  What Pillow and [read_csv]
      make of the bytes is a parameter: a value or an exception.  The
      resource cache keeps results by arguments until it is cleared. *)

From Stdlib Require Import String Ascii.
From Stdlib Require Import List ZArith QArith Lia Bool Arith.
From Stdlib Require Import Permutation Sorted OrderedTypeEx.
From Stdlib Require Import DecimalString.
From Stdlib Require Strings.Byte.
Import ListNotations.

Local Open Scope string_scope.
Local Open Scope list_scope.
Local Open Scope Z_scope.

(* ================================================================= *)
(** * Part I: the model *)
(* ================================================================= *)

(** ** pandas primitives *)

Module Pandas.

(** A [Series]: index labels paired with integer values, in order. *)
Definition Series := list (string * Z).

(** [Series.index.tolist()]. *)
Definition index (s : Series) : list string := map fst s.

(** [Series.sum()] over integers. *)
Definition Zsum (l : list Z) : Z := fold_right Z.add 0 l.

(** [.tail(n)]: the last [n] entries, all of them when there are fewer. *)
Definition tail {A : Type} (n : nat) (l : list A) : list A :=
  skipn (length l - n) l.

(** [x in values], the test behind [Series.isin(values)]. *)
Definition isin (values : list string) (x : string) : bool :=
  existsb (String.eqb x) values.

(** Order of group keys: Python compares [str] by code point, which on the
    bytes of a string is [String.compare]. *)
Definition key_lt (a b : string) : Prop := String.compare a b = Lt.

(** Inserts a key into an ascending list without repeating it. *)
Fixpoint insert_key (k : string) (l : list string) : list string :=
  match l with
  | [] => [k]
  | h :: t =>
      match String.compare k h with
      | Lt => k :: h :: t
      | Eq => h :: t
      | Gt => h :: insert_key k t
      end
  end.

(** The keys of [groupby(...)] with its default [sort=True]: the distinct
    values of the column, ascending. *)
Definition group_keys (col : list string) : list string :=
  fold_right insert_key [] col.

(** Insertion sort, the shape of both instances of [sort_values]:
    [before x y] says that a row [x] coming earlier in the frame is put
    in front of [y]. *)
Section InsertionSort.
Context {A : Type}.
Variable before : A -> A -> bool.

Fixpoint insert (x : A) (l : list A) : list A :=
  match l with
  | [] => [x]
  | y :: t => if before x y then x :: y :: t else y :: insert x t
  end.

Definition isort (l : list A) : list A := fold_right insert [] l.

End InsertionSort.

(** Number of distinct values of a column. *)
Definition nunique (col : list string) : nat :=
  length (nodup string_dec col).

(** Position of the first occurrence of [x] in [l] ([length l] when it
    does not occur). *)
Fixpoint first_index (x : string) (l : list string) : nat :=
  match l with
  | [] => 0%nat
  | y :: t => if String.eqb x y then 0%nat else S (first_index x t)
  end.

(** [a] is met before [b] when reading [l] from its head. *)
Definition precedes (l : list string) (a b : string) : Prop :=
  (first_index a l < first_index b l)%nat.

(** [l1] is [l2] with some rows removed and the rest left in place. *)
Inductive subsequence {A : Type} : list A -> list A -> Prop :=
| sub_nil : subsequence [] []
| sub_skip x l1 l2 : subsequence l1 l2 -> subsequence l1 (x :: l2)
| sub_keep x l1 l2 : subsequence l1 l2 -> subsequence (x :: l1) (x :: l2).

End Pandas.

(** ** Section 8: incidents by location *)

Module Incidents.
Import Pandas.

(** One row of [data.csv]. *)
Record IncidentRecord : Type := {
  Location : string;
  Category : string;
  Count : Z
}.

Definition DataFrame := list IncidentRecord.

(** [df.empty]. *)
Definition empty (df : DataFrame) : bool :=
  match df with
  | [] => true
  | _ :: _ => false
  end.

(** Rows of one location, and the sum of their counts. *)
Definition rows_at (df : DataFrame) (k : string) : DataFrame :=
  filter (fun r => String.eqb (Location r) k) df.

Definition location_count (df : DataFrame) (k : string) : Z :=
  Zsum (map Count (rows_at df k)).

(** [df_incidents.groupby("Location")["Count"].sum()]: one entry per
    distinct location, keys ascending. *)
Definition groupby_sum (df : DataFrame) : Series :=
  map (fun k => (k, location_count df k)) (group_keys (map Location df)).

(** Order of [sort_values(ascending=True)] on a series. *)
Definition total_le (a b : string * Z) : Prop := snd a <= snd b.

(** Order by total, then by name. *)
Definition total_then_name (p q : string * Z) : Prop :=
  snd p < snd q \/ (snd p = snd q /\ key_lt (fst p) (fst q)).

(** What the script relies on from [Series.sort_values]. *)
Definition sorts_ascending (sort_values : Series -> Series) : Prop :=
  (forall s, Permutation (sort_values s) s) /\
  (forall s, Sorted total_le (sort_values s)).

(** The stable instance: equal totals keep the order of the series. *)
Definition stable_sort : Series -> Series :=
  isort (fun x y => snd x <=? snd y).

(** An instance that reverses equal totals. *)
Definition tie_reversing_sort : Series -> Series :=
  isort (fun x y => snd x <? snd y).

Section Pipeline.
Variable sort_values : Series -> Series.

(** Line 899. *)
Definition location_totals (df : DataFrame) : Series :=
  sort_values (groupby_sum df).

(** Line 902. *)
Definition top_locations (df : DataFrame) : list string :=
  index (tail 20 (location_totals df)).

(** Line 905. *)
Definition df_filtered (df : DataFrame) : DataFrame :=
  filter (fun r => isin (top_locations df) (Location r)) df.

(** Line 928: [df_incidents['Count'].sum()], shown in the chart title. *)
Definition grand_total (df : DataFrame) : Z := Zsum (map Count df).

(** What section 8 hands to the chart: the order of the location axis,
    the rows drawn, and the total in the title. *)
Record Aggregate : Type := {
  topLocations : list string;
  filteredRecords : DataFrame;
  grandTotal : Z
}.

(** What section 8 shows: the chart, or the warning of line 985. *)
Inductive View : Type :=
| Chart (a : Aggregate)
| Warning (msg : string).

(** Lines 896-985. *)
Definition incident_analysis (df : DataFrame) : View :=
  if negb (empty df) then
    Chart {| topLocations := top_locations df;
             filteredRecords := df_filtered df;
             grandTotal := grand_total df |}
  else
    Warning "No data available for analysis.".

End Pipeline.

(** The rows that line 905 drops. *)
Definition df_discarded (sort_values : Series -> Series) (df : DataFrame)
  : DataFrame :=
  filter (fun r => negb (isin (top_locations sort_values df) (Location r))) df.

(** The tie rule of the specification: of two locations with equal
    totals, the one met first in the input comes first in the ranking. *)
Definition ties_in_first_seen_order (sort_values : Series -> Series) : Prop :=
  forall (df : DataFrame) (a b : string),
    In a (map Location df) -> In b (map Location df) ->
    location_count df a = location_count df b ->
    precedes (map Location df) a b ->
    precedes (index (location_totals sort_values df)) a b.

(** Sample frames: the scenario of the specification, two locations with
    equal totals in both orders, and twenty-one locations ["A"] to ["U"]
    with counts 1 to 21. *)
Definition record (l c : string) (n : Z) : IncidentRecord :=
  {| Location := l; Category := c; Count := n |}.

Definition scenario : DataFrame :=
  [record "A" "Noise" 3; record "B" "Youths" 10; record "A" "Smoking" 2].

Definition tie_BA : DataFrame := [record "B" "Noise" 1; record "A" "Noise" 1].

Definition tie_AB : DataFrame := [record "A" "Noise" 1; record "B" "Noise" 1].

Definition streets : DataFrame :=
  map (fun n => record (String (ascii_of_nat (65 + n)) "") "Noise" (Z.of_nat (S n)))
      (seq 0 21).

End Incidents.

(** ** Section 7: legal imports against the illicit market *)

Module Imports.
Import Pandas.

Inductive CommodityType : Type := Legal | Illegal.

(** One row of the commodity table; [Type_] is the column ["Type"]. *)
Record CommodityRow : Type := {
  Commodity : string;
  Value : Q;
  Type_ : CommodityType
}.

Definition is_illegal (r : CommodityRow) : bool :=
  match Type_ r with
  | Illegal => true
  | Legal => false
  end.

(** Lines 750-761. *)
Definition import_data : list CommodityRow :=
  [ {| Commodity := "Mineral Fuels"; Value := 8.7; Type_ := Legal |};
    {| Commodity := "Mechanical Appliances"; Value := 6.4; Type_ := Legal |};
    {| Commodity := "Electronic Equipment"; Value := 5.3; Type_ := Legal |};
    {| Commodity := "Precious Metals"; Value := 4.2; Type_ := Legal |};
    {| Commodity := "Motor Vehicles"; Value := 4.1; Type_ := Legal |};
    {| Commodity := "Pharmaceuticals"; Value := 2.0; Type_ := Legal |};
    {| Commodity := "Other Products"; Value := 1.6; Type_ := Legal |};
    {| Commodity := "Plastics"; Value := 1.5; Type_ := Legal |};
    {| Commodity := "Measuring Devices"; Value := 1.3; Type_ := Legal |};
    {| Commodity := "Knitwear"; Value := 1.3; Type_ := Legal |} ].

(** Line 768. *)
Definition new_row : CommodityRow :=
  {| Commodity := "Illicit Drugs"; Value := 9.4; Type_ := Illegal |}.

(** Order of [sort_values("Value", ascending=False)]. *)
Definition value_ge (a b : CommodityRow) : Prop := (Value b <= Value a)%Q.

(** What the script relies on from [DataFrame.sort_values]. *)
Definition sorts_descending
  (sort_values : list CommodityRow -> list CommodityRow) : Prop :=
  (forall t, Permutation (sort_values t) t) /\
  (forall t, Sorted value_ge (sort_values t)).

(** The stable instance: equal values keep the order of the frame. *)
Definition stable_sort : list CommodityRow -> list CommodityRow :=
  isort (fun x y => Qle_bool (Value y) (Value x)).

(** An instance that reverses equal values. *)
Definition tie_reversing_sort : list CommodityRow -> list CommodityRow :=
  isort (fun x y => negb (Qle_bool (Value x) (Value y))).

(** [st.session_state], of which the script uses the one key
    ['reveal_drug_market']: [None] while the key is absent. *)
Definition session_state := option bool.

(** The buttons of lines 838-845. *)
Inductive Button : Type := RevealButton | ResetButton.

Section Script.
Variable sort_values : list CommodityRow -> list CommodityRow.

(** Lines 763-772: the table drawn for a value of the flag. *)
Definition df_imports (revealed : bool) : list CommodityRow :=
  sort_values (if revealed then import_data ++ [new_row] else import_data).

(** Lines 746-747. *)
Definition init_state (ss : session_state) : bool :=
  match ss with
  | None => false
  | Some b => b
  end.

(** Lines 838-845: the flag after the buttons, and whether [st.rerun()]
    was called.  Only one of the two buttons is drawn, so a press of the
    other one cannot arrive and changes nothing. *)
Definition buttons (revealed : bool) (click : option Button) : bool * bool :=
  if negb revealed then
    match click with
    | Some RevealButton => (true, true)
    | _ => (revealed, false)
    end
  else
    match click with
    | Some ResetButton => (false, true)
    | _ => (revealed, false)
    end.

(** One run of the script: the table drawn, the session state left, and
    the rerun request. *)
Definition run (ss : session_state) (click : option Button)
  : list CommodityRow * session_state * bool :=
  let revealed := init_state ss in
  let table := df_imports revealed in
  let '(revealed', rerun) := buttons revealed click in
  (table, Some revealed', rerun).

(** A visit or a button press, followed by the rerun it asks for: the
    table left on the page and the session state. *)
Definition interact (ss : session_state) (click : option Button)
  : list CommodityRow * session_state :=
  let '(table, ss', rerun) := run ss click in
  if rerun then
    let '(table', ss'', _) := run ss' None in (table', ss'')
  else (table, ss').

(** A new session: the first visit, then the presses in order. *)
Definition session (clicks : list Button) : list CommodityRow * session_state :=
  fold_left (fun st b => interact (snd st) (Some b)) clicks (interact None None).

End Script.


End Imports.

(** ** Start of the script: assets, data and inline images *)

Module Assets.

(** The contents of a file. *)
Definition bytes := list Byte.byte.

(** The files the script can see, by path. *)
Definition FileSystem := string -> option bytes.

(** [os.path.exists]. *)
Definition path_exists (fs : FileSystem) (f : string) : bool :=
  match fs f with
  | Some _ => true
  | None => false
  end.

(** [str(i)] of a natural number. *)
Definition str (i : nat) : string := NilZero.string_of_uint (Nat.to_uint i).

(** A line feed, the ["\n"] of the messages. *)
Definition nl : string := String (ascii_of_nat 10) "".

(** Line 102: [f"{i}.png" for i in range(1, 9)]. *)
Definition required_images : list string :=
  map (fun i => (str i ++ ".png")%string) (seq 1 8).

(** Line 103. *)
Definition required_data : list string := ["data.csv"].

(** The image files the script draws: [st.image] at lines 334, 451, 465,
    470, 553 and 661, [load_and_resize_image] at lines 717 and 718. *)
Definition displayed_images : list string :=
  ["8.png"; "5.png"; "1.png"; "2.png"; "3.png"; "4.png"; "6.png"; "7.png"].

(** How [check_system_integrity] ends: [st.error] and [st.stop()], or a
    return, after [st.warning] when images are missing. *)
Inductive Checked : Type :=
| Stopped (error : string)
| Passed (warning : option string).

(** Lines 96-114. *)
Definition check_system_integrity (fs : FileSystem) : Checked :=
  let missing_data := filter (fun f => negb (path_exists fs f)) required_data in
  match missing_data with
  | _ :: _ =>
      Stopped ("⛔ **CRITICAL ERROR: System Data Missing**" ++ nl ++ nl
               ++ "The following core files could not be found: `"
               ++ String.concat ", " missing_data ++ "`")%string
  | [] =>
      let missing_images :=
        filter (fun f => negb (path_exists fs f)) required_images in
      match missing_images with
      | _ :: _ =>
          Passed (Some ("⚠️ **Asset Warning:** Some visual assets are missing: `"
                        ++ String.concat ", " missing_images
                        ++ "`. Placeholders will be used.")%string)
      | [] => Passed None
      end
  end.

(** What a call gives: its value, or the exception it raises. *)
Inductive Outcome (A : Type) : Type :=
| Returned (a : A)
| Raised (exception : string).
Arguments Returned {A} a.
Arguments Raised {A} exception.

(** *** Base64 ([base64.b64encode], RFC 4648 section 4) *)

Definition b64_alphabet : list ascii :=
  list_ascii_of_string
    "ABCDEFGHIJKLMNOPQRSTUVWXYZabcdefghijklmnopqrstuvwxyz0123456789+/".

(** The character of a 6-bit value. *)
Definition b64_char (i : N) : ascii := nth (N.to_nat i) b64_alphabet "="%char.

(** The [k]-th 6-bit group of [n], counted from the low end. *)
Definition sextet (n : N) (k : N) : N := ((n / 64 ^ k) mod 64)%N.

(** Three bytes give four characters; a last group of one or two bytes is
    filled with zero bits and padded with ["="]. *)
Fixpoint b64encode (data : bytes) : list ascii :=
  match data with
  | [] => []
  | [a] =>
      let n := (Byte.to_N a * 16)%N in
      [b64_char (sextet n 1); b64_char (sextet n 0); "="%char; "="%char]
  | [a; b] =>
      let n := ((Byte.to_N a * 256 + Byte.to_N b) * 4)%N in
      [b64_char (sextet n 2); b64_char (sextet n 1); b64_char (sextet n 0);
       "="%char]
  | a :: b :: c :: rest =>
      let n := ((Byte.to_N a * 256 + Byte.to_N b) * 256 + Byte.to_N c)%N in
      b64_char (sextet n 3) :: b64_char (sextet n 2)
      :: b64_char (sextet n 1) :: b64_char (sextet n 0) :: b64encode rest
  end.

(** The position of a character in a list. *)
Fixpoint index_in (c : ascii) (l : list ascii) : option N :=
  match l with
  | [] => None
  | x :: t =>
      if Ascii.eqb c x then Some 0%N else option_map N.succ (index_in c t)
  end.

Definition b64_index (c : ascii) : option N := index_in c b64_alphabet.

(** The reading of a Base64 text (what the browser does with the [src]
    attribute; the script itself never decodes): groups of four
    characters give three bytes, and a last group padded with ["="] gives
    one or two. *)
Fixpoint b64decode (text : list ascii) : option bytes :=
  match text with
  | [] => Some []
  | c0 :: c1 :: c2 :: c3 :: rest =>
      match b64_index c0, b64_index c1, b64_index c2, b64_index c3 with
      | Some i0, Some i1, Some i2, Some i3 =>
          let n := (((i0 * 64 + i1) * 64 + i2) * 64 + i3)%N in
          match Byte.of_N (n / 65536), Byte.of_N ((n / 256) mod 256),
                Byte.of_N (n mod 256), b64decode rest with
          | Some a, Some b, Some c, Some tl => Some (a :: b :: c :: tl)
          | _, _, _, _ => None
          end
      | Some i0, Some i1, Some i2, None =>
          let n := (((i0 * 64 + i1) * 64 + i2) / 4)%N in
          match Byte.of_N (n / 256), Byte.of_N (n mod 256), rest with
          | Some a, Some b, [] =>
              if Ascii.eqb c3 "="%char then Some [a; b] else None
          | _, _, _ => None
          end
      | Some i0, Some i1, None, None =>
          match Byte.of_N ((i0 * 64 + i1) / 16), rest with
          | Some a, [] =>
              if Ascii.eqb c2 "="%char && Ascii.eqb c3 "="%char
              then Some [a] else None
          | _, _ => None
          end
      | _, _, _, _ => None
      end
  | _ => None
  end.

(** Lines 679-682 (and again 700-703): [open] raises when the file is not
    there; the text of the encoding is ASCII, so [.decode()] returns it
    as it is. *)
Definition get_img_as_base64 (fs : FileSystem) (file_path : string)
  : Outcome string :=
  match fs file_path with
  | None => Raised "FileNotFoundError"
  | Some data => Returned (string_of_list_ascii (b64encode data))
  end.

(** Characters that would end or break the [src] attribute of lines
    688-694: the double quote (code 34), angle brackets, ampersand and
    space. *)
Definition breaks_attribute (c : ascii) : bool :=
  existsb (Ascii.eqb c)
    [ascii_of_nat 34; "<"%char; ">"%char; "&"%char; " "%char].

Section Script.

(** Pillow and pandas, as far as the script uses them: reading the bytes
    of an image or of a CSV file gives a value or raises, and so does
    fitting an image to a size. *)
Variable Image : Type.
Variable Image_open : bytes -> Image + string.
Variable ImageOps_fit : Image -> nat * nat -> Image + string.
Variable read_csv : bytes -> Incidents.DataFrame + string.











End Script.

(** Sample file systems: every file the script names, and the same
    without ["ju.png"]. *)
Definition png : bytes := [Byte.x89; Byte.x50; Byte.x4e; Byte.x47].

Definition complete_fs : FileSystem :=
  fun f =>
    if existsb (String.eqb f)
         ("logo.png" :: "ju.png" :: "data.csv" :: required_images)
    then Some png else None.

Definition fs_without (f : string) (fs : FileSystem) : FileSystem :=
  fun g => if String.eqb g f then None else fs g.

End Assets.

(* ================================================================= *)
(** * Part II: properties *)
(* ================================================================= *)

(** ** Facts about the pandas primitives *)

Module PandasFacts.
Import Pandas.


Lemma Zsum_perm (l l' : list Z) : Permutation l l' -> Zsum l = Zsum l'.
Proof.
  unfold Zsum. induction 1; simpl; lia.
Qed.

Lemma filter_perm {A : Type} (f : A -> bool) (l l' : list A) :
  Permutation l l' -> Permutation (filter f l) (filter f l').
Proof.
  induction 1 as [|x l l' _ IH|x y l|l l' l'' _ IH1 _ IH2]; simpl.
  - apply perm_nil.
  - destruct (f x); [apply perm_skip|]; exact IH.
  - destruct (f x), (f y); try apply Permutation_refl. apply perm_swap.
  - exact (perm_trans IH1 IH2).
Qed.

Lemma filter_all {A : Type} (f : A -> bool) (l : list A) :
  (forall x, In x l -> f x = true) -> filter f l = l.
Proof.
  induction l as [|x l IH]; simpl; intros H; [reflexivity|].
  rewrite (H x (or_introl eq_refl)). f_equal. apply IH.
  intros y Hy. apply H. right. exact Hy.
Qed.

Lemma isin_In (values : list string) (x : string) :
  isin values x = true <-> In x values.
Proof.
  unfold isin. rewrite existsb_exists. split.
  - intros [y [Hy E]]. apply String.eqb_eq in E. subst y. exact Hy.
  - intros H. exists x. split; [exact H | apply String.eqb_refl].
Qed.

Lemma subsequence_filter {A : Type} (f : A -> bool) (l : list A) :
  subsequence (filter f l) l.
Proof.
  induction l as [|x l IH]; simpl.
  - constructor.
  - destruct (f x); constructor; exact IH.
Qed.


(** *** [tail] *)

Lemma tail_length {A : Type} (n : nat) (l : list A) :
  length (tail n l) = Nat.min n (length l).
Proof.
  unfold tail. rewrite length_skipn. lia.
Qed.

Lemma tail_all {A : Type} (n : nat) (l : list A) :
  (length l <= n)%nat -> tail n l = l.
Proof.
  intros H. unfold tail. replace (length l - n)%nat with 0%nat by lia.
  reflexivity.
Qed.

Lemma skipn_In {A : Type} (k : nat) (l : list A) (x : A) :
  In x (skipn k l) -> In x l.
Proof.
  revert l. induction k as [|k IH]; intros [|y l]; simpl; auto.
Qed.


Lemma skipn_NoDup {A : Type} (k : nat) (l : list A) :
  NoDup l -> NoDup (skipn k l).
Proof.
  revert l. induction k as [|k IH]; intros [|y l] H; simpl; auto.
  apply IH. inversion H; assumption.
Qed.

(** *** Insertion sort: both instances meet the contract of a sort *)

Section InsertionSortFacts.
Context {A : Type}.
Variable before : A -> A -> bool.
Variable R : A -> A -> Prop.
Hypothesis before_true : forall x y, before x y = true -> R x y.
Hypothesis before_false : forall x y, before x y = false -> R y x.

Lemma insert_perm (x : A) (l : list A) : Permutation (insert before x l) (x :: l).
Proof.
  induction l as [|y t IH]; simpl.
  - apply Permutation_refl.
  - destruct (before x y).
    + apply Permutation_refl.
    + apply perm_trans with (y :: x :: t).
      * apply perm_skip. exact IH.
      * apply perm_swap.
Qed.

Lemma isort_perm (l : list A) : Permutation (isort before l) l.
Proof.
  induction l as [|x l IH]; simpl.
  - apply perm_nil.
  - apply perm_trans with (x :: isort before l).
    + apply insert_perm.
    + apply perm_skip. exact IH.
Qed.

Lemma insert_HdRel (a x : A) (l : list A) :
  R a x -> HdRel R a l -> HdRel R a (insert before x l).
Proof.
  intros Hax Hl. destruct l as [|y t]; simpl.
  - constructor. exact Hax.
  - destruct (before x y); constructor.
    + exact Hax.
    + inversion Hl; assumption.
Qed.

Lemma insert_sorted (x : A) (l : list A) :
  Sorted R l -> Sorted R (insert before x l).
Proof.
  induction 1 as [|y t Ht IH Hy]; simpl.
  - repeat constructor.
  - destruct (before x y) eqn:E.
    + constructor.
      * constructor; assumption.
      * constructor. apply before_true. exact E.
    + constructor.
      * exact IH.
      * apply insert_HdRel; [apply before_false; exact E | exact Hy].
Qed.

Lemma isort_sorted (l : list A) : Sorted R (isort before l).
Proof.
  induction l as [|x l IH]; simpl.
  - constructor.
  - apply insert_sorted. exact IH.
Qed.

End InsertionSortFacts.

End PandasFacts.

(** ** Facts about the group keys *)

Module KeyFacts.
Import Pandas.

Lemma key_lt_trans (a b c : string) : key_lt a b -> key_lt b c -> key_lt a c.
Proof.
  unfold key_lt. intros H1 H2.
  apply String_as_OT.cmp_lt in H1. apply String_as_OT.cmp_lt in H2.
  apply String_as_OT.cmp_lt. exact (String_as_OT.lt_trans _ _ _ H1 H2).
Qed.

Lemma key_lt_irrefl (a : string) : ~ key_lt a a.
Proof.
  unfold key_lt. intros H.
  assert (E : String.compare a a = Eq) by (apply String_as_OT.cmp_eq; reflexivity).
  congruence.
Qed.

Lemma compare_Gt_key_lt (a b : string) : String.compare a b = Gt -> key_lt b a.
Proof.
  unfold key_lt. rewrite String.compare_antisym.
  destruct (String.compare b a); simpl; congruence.
Qed.

Lemma compare_Eq_eq (a b : string) : String.compare a b = Eq -> a = b.
Proof.
  apply String.compare_eq_iff.
Qed.

(** Closes a goal whose hypotheses order some keys in a cycle. *)
Ltac key_cycle :=
  exfalso;
  match goal with
  | H : key_lt ?x ?x |- _ => exact (key_lt_irrefl _ H)
  | H1 : key_lt ?x ?y, H2 : key_lt ?y ?x |- _ =>
      exact (key_lt_irrefl _ (key_lt_trans _ _ _ H1 H2))
  | H1 : key_lt ?x ?y, H2 : key_lt ?y ?z, H3 : key_lt ?z ?x |- _ =>
      exact (key_lt_irrefl _ (key_lt_trans _ _ _ (key_lt_trans _ _ _ H1 H2) H3))
  end.

(** Splits on the first comparison of the goal, keeping its outcome as an
    equality of keys or as [key_lt]. *)
Ltac key_case :=
  match goal with
  | |- context [String.compare ?x ?y] =>
      let E := fresh "E" in
      destruct (String.compare x y) eqn:E;
      [ apply compare_Eq_eq in E; subst
      | change (key_lt x y) in E
      | apply compare_Gt_key_lt in E ]
  end.

Lemma insert_key_In (k x : string) (l : list string) :
  In x (insert_key k l) <-> x = k \/ In x l.
Proof.
  induction l as [|h t IH]; simpl.
  - intuition congruence.
  - key_case; simpl; try rewrite IH; intuition congruence.
Qed.

Lemma group_keys_In (x : string) (col : list string) :
  In x (group_keys col) <-> In x col.
Proof.
  induction col as [|k col IH]; simpl.
  - reflexivity.
  - rewrite insert_key_In, IH. intuition congruence.
Qed.

Lemma insert_key_HdRel (a k : string) (l : list string) :
  key_lt a k -> HdRel key_lt a l -> HdRel key_lt a (insert_key k l).
Proof.
  intros Hak Hl. destruct l as [|h t]; simpl.
  - constructor. exact Hak.
  - key_case; try (constructor; assumption).
    constructor. inversion Hl; assumption.
Qed.

Lemma insert_key_Sorted (k : string) (l : list string) :
  Sorted key_lt l -> Sorted key_lt (insert_key k l).
Proof.
  induction 1 as [|h t Ht IH Hh]; simpl.
  - repeat constructor.
  - key_case.
    + constructor; assumption.
    + constructor; [constructor; assumption | constructor; assumption].
    + constructor; [exact IH | apply insert_key_HdRel; assumption].
Qed.

Lemma group_keys_StronglySorted (col : list string) :
  StronglySorted key_lt (group_keys col).
Proof.
  apply Sorted_StronglySorted.
  - intros a b c. apply key_lt_trans.
  - induction col as [|k col IH]; simpl.
    + constructor.
    + apply insert_key_Sorted. exact IH.
Qed.

Lemma StronglySorted_key_lt_NoDup (l : list string) :
  StronglySorted key_lt l -> NoDup l.
Proof.
  induction 1 as [|a l _ IH Ha]; constructor; [|exact IH].
  intros Hin. rewrite Forall_forall in Ha.
  exact (key_lt_irrefl a (Ha a Hin)).
Qed.

Lemma group_keys_NoDup (col : list string) : NoDup (group_keys col).
Proof.
  apply StronglySorted_key_lt_NoDup, group_keys_StronglySorted.
Qed.

Lemma group_keys_length (col : list string) :
  length (group_keys col) = nunique col.
Proof.
  unfold nunique. apply Permutation_length, NoDup_Permutation.
  - apply group_keys_NoDup.
  - apply NoDup_nodup.
  - intros x. rewrite group_keys_In, nodup_In. reflexivity.
Qed.

(** The order in which two keys are inserted does not matter. *)
Lemma insert_key_comm (a b : string) (l : list string) :
  insert_key a (insert_key b l) = insert_key b (insert_key a l).
Proof.
  induction l as [|h t IH]; simpl.
  - repeat (key_case; simpl); try reflexivity; key_cycle.
  - repeat (key_case; simpl); try reflexivity; try (f_equal; exact IH);
      key_cycle.
Qed.

(** The keys depend on the values of the column, not on their order. *)
Lemma group_keys_perm (col col' : list string) :
  Permutation col col' -> group_keys col = group_keys col'.
Proof.
  induction 1 as [|x l l' _ IH|x y l|l l' l'' _ IH1 _ IH2]; simpl.
  - reflexivity.
  - rewrite IH. reflexivity.
  - apply insert_key_comm.
  - congruence.
Qed.

End KeyFacts.

(** ** Section 8: grouping *)

Module GroupingFacts.
Import Pandas Incidents PandasFacts KeyFacts.


Lemma location_count_perm (df df' : DataFrame) (k : string) :
  Permutation df df' -> location_count df k = location_count df' k.
Proof.
  intros H. unfold location_count, rows_at.
  apply Zsum_perm, Permutation_map, filter_perm, H.
Qed.

Lemma groupby_sum_index (df : DataFrame) :
  index (groupby_sum df) = group_keys (map Location df).
Proof.
  unfold index, groupby_sum. rewrite map_map. simpl. apply map_id.
Qed.

Lemma groupby_sum_In (df : DataFrame) (k : string) (v : Z) :
  In (k, v) (groupby_sum df)
  <-> In k (map Location df) /\ v = location_count df k.
Proof.
  unfold groupby_sum. rewrite in_map_iff. split.
  - intros [k' [E Hin]]. inversion E; subst.
    split; [apply group_keys_In; exact Hin | reflexivity].
  - intros [Hin ->]. exists k.
    split; [reflexivity | apply group_keys_In; exact Hin].
Qed.

(** The grouped series depends on the rows, not on their order. *)
Lemma groupby_sum_perm (df df' : DataFrame) :
  Permutation df df' -> groupby_sum df = groupby_sum df'.
Proof.
  intros H. unfold groupby_sum.
  rewrite (group_keys_perm _ _ (Permutation_map Location H)).
  apply map_ext. intros k. f_equal. apply location_count_perm, H.
Qed.





End GroupingFacts.

(** ** The stable sort ranks equal totals by name *)

Module StableFacts.
Import Pandas Incidents PandasFacts KeyFacts GroupingFacts.

Lemma total_then_name_trans (p q r : string * Z) :
  total_then_name p q -> total_then_name q r -> total_then_name p r.
Proof.
  unfold total_then_name. intros [H1|[H1 K1]] [H2|[H2 K2]]; try (left; lia).
  right. split; [lia | exact (key_lt_trans _ _ _ K1 K2)].
Qed.

Lemma stable_insert_HdRel (a x : string * Z) (l : Series) :
  total_then_name a x -> HdRel total_then_name a l ->
  HdRel total_then_name a (insert (fun x y => snd x <=? snd y) x l).
Proof.
  intros Hax Hl. destruct l as [|y t]; simpl.
  - constructor. exact Hax.
  - destruct (snd x <=? snd y); constructor.
    + exact Hax.
    + inversion Hl; assumption.
Qed.

(** An entry whose name is below every name of a sorted series goes in
    front of the entries with its total. *)
Lemma stable_insert_Sorted (x : string * Z) (l : Series) :
  Sorted total_then_name l ->
  Forall (fun y => key_lt (fst x) (fst y)) l ->
  Sorted total_then_name (insert (fun x y => snd x <=? snd y) x l).
Proof.
  induction 1 as [|y t Ht IH Hy]; simpl; intros Hall.
  - repeat constructor.
  - inversion Hall as [|? ? Hxy Hall']; subst.
    destruct (Z.leb_spec (snd x) (snd y)) as [Hle|Hgt].
    + constructor; [constructor; assumption|]. constructor.
      unfold total_then_name.
      destruct (Z.eq_dec (snd x) (snd y)) as [E|E];
        [right; split; assumption | left; lia].
    + constructor; [apply IH; exact Hall'|].
      apply stable_insert_HdRel; [left; lia | exact Hy].
Qed.

Lemma stable_sort_total_then_name (s : Series) :
  StronglySorted key_lt (index s) ->
  StronglySorted total_then_name (stable_sort s).
Proof.
  intros H. apply Sorted_StronglySorted.
  { intros p q r. apply total_then_name_trans. }
  unfold stable_sort. induction s as [|x s IH]; simpl.
  - constructor.
  - unfold index in H. simpl in H. inversion H as [|? ? Hs Hx]; subst.
    apply stable_insert_Sorted.
    + apply IH. exact Hs.
    + apply Forall_forall. intros y Hy.
      apply (Permutation_in _ (isort_perm _ s)) in Hy.
      rewrite Forall_forall in Hx. apply Hx, in_map, Hy.
Qed.

(** In a series sorted by total and name, with no name twice, a name
    comes before the greater names with its total. *)
Lemma total_then_name_precedes (out : Series) (a b : string) (v : Z) :
  StronglySorted total_then_name out -> NoDup (index out) ->
  In (a, v) out -> In (b, v) out -> key_lt a b ->
  precedes (index out) a b.
Proof.
  unfold precedes.
  induction 1 as [|p t Ht IH Hp]; simpl; intros Hnd Ha Hb Hab; [contradiction|].
  inversion Hnd as [|? ? Hnotin Hnd']; subst.
  rewrite Forall_forall in Hp.
  destruct (String.eqb_spec a (fst p)) as [Ea|Ea];
    destruct (String.eqb_spec b (fst p)) as [Eb|Eb].
  - exfalso. subst a. rewrite <- Eb in Hab. exact (key_lt_irrefl _ Hab).
  - lia.
  - exfalso.
    destruct Ha as [Ha|Ha]; [subst p; simpl in Ea; congruence|].
    destruct Hb as [Hb|Hb].
    + subst p. specialize (Hp _ Ha). unfold total_then_name in Hp. simpl in Hp.
      destruct Hp as [Hp|[_ Hp]]; [lia|].
      exact (key_lt_irrefl _ (key_lt_trans _ _ _ Hab Hp)).
    + apply Hnotin. rewrite <- Eb. apply (in_map fst _ _ Hb).
  - apply -> Nat.succ_lt_mono.
    destruct Ha as [Ha|Ha]; [subst p; simpl in Ea; congruence|].
    destruct Hb as [Hb|Hb]; [subst p; simpl in Eb; congruence|].
    apply IH; assumption.
Qed.

(** With the stable sort, locations with equal totals are ranked by
    ascending name. *)
Lemma stable_sort_ties_by_name (df : DataFrame) (a b : string) :
  In a (map Location df) -> In b (map Location df) ->
  location_count df a = location_count df b ->
  key_lt a b ->
  precedes (index (location_totals stable_sort df)) a b.
Proof.
  intros Ha Hb Hv Hab. unfold location_totals.
  assert (Hperm : Permutation (stable_sort (groupby_sum df)) (groupby_sum df))
    by apply isort_perm.
  apply (total_then_name_precedes _ a b (location_count df a)).
  - apply stable_sort_total_then_name.
    rewrite groupby_sum_index. apply group_keys_StronglySorted.
  - apply (Permutation_NoDup (Permutation_sym (Permutation_map fst Hperm))).
    fold (index (groupby_sum df)). rewrite groupby_sum_index.
    apply group_keys_NoDup.
  - apply (Permutation_in _ (Permutation_sym Hperm)).
    apply groupby_sum_In. split; [exact Ha | reflexivity].
  - apply (Permutation_in _ (Permutation_sym Hperm)).
    apply groupby_sum_In. split; [exact Hb | exact Hv].
  - exact Hab.
Qed.

End StableFacts.

(** ** Section 8: ranking and filtering *)

Module IncidentProofs.
Import Pandas Incidents PandasFacts KeyFacts GroupingFacts StableFacts.

(** The two instances meet the contract. *)
Lemma stable_sort_ascending : sorts_ascending stable_sort.
Proof.
  split; intros s.
  - apply isort_perm.
  - apply isort_sorted; unfold total_le; intros x y H; lia.
Qed.

Lemma tie_reversing_sort_ascending : sorts_ascending tie_reversing_sort.
Proof.
  split; intros s.
  - apply isort_perm.
  - apply isort_sorted; unfold total_le; intros x y H; lia.
Qed.


Section Ranking.
Variable sort_values : Series -> Series.
Hypothesis sort_ok : sorts_ascending sort_values.

Lemma location_totals_perm (df : DataFrame) :
  Permutation (location_totals sort_values df) (groupby_sum df).
Proof.
  apply (proj1 sort_ok).
Qed.

Lemma location_totals_In (df : DataFrame) (p : string * Z) :
  In p (location_totals sort_values df) ->
  In (fst p) (map Location df) /\ snd p = location_count df (fst p).
Proof.
  intros H. apply (Permutation_in _ (location_totals_perm df)) in H.
  destruct p as [k v]. apply groupby_sum_In in H. exact H.
Qed.

Lemma location_totals_index_perm (df : DataFrame) :
  Permutation (index (location_totals sort_values df))
              (group_keys (map Location df)).
Proof.
  rewrite <- groupby_sum_index. apply Permutation_map, location_totals_perm.
Qed.

Lemma location_totals_index_NoDup (df : DataFrame) :
  NoDup (index (location_totals sort_values df)).
Proof.
  apply (Permutation_NoDup (Permutation_sym (location_totals_index_perm df))).
  apply group_keys_NoDup.
Qed.

Lemma location_totals_length (df : DataFrame) :
  length (location_totals sort_values df) = nunique (map Location df).
Proof.
  rewrite <- group_keys_length, <- (Permutation_length (location_totals_index_perm df)).
  unfold index. rewrite length_map. reflexivity.
Qed.


Lemma top_locations_incl (df : DataFrame) (k : string) :
  In k (top_locations sort_values df) -> In k (map Location df).
Proof.
  unfold top_locations, index, tail. intros H.
  apply in_map_iff in H. destruct H as [p [E Hp]]. subst k.
  apply skipn_In in Hp. apply location_totals_In in Hp. apply Hp.
Qed.

(** With at most twenty locations every location is in the top set. *)
Lemma top_locations_all (df : DataFrame) (k : string) :
  (nunique (map Location df) <= 20)%nat ->
  In k (map Location df) -> In k (top_locations sort_values df).
Proof.
  intros Hn Hk. unfold top_locations.
  rewrite tail_all by (rewrite location_totals_length; exact Hn).
  apply (Permutation_in _ (Permutation_sym (location_totals_index_perm df))).
  apply group_keys_In. exact Hk.
Qed.




(** C10.  [top_locations] names no location twice, each of its names is
    the location of a row of the input, and when it is not empty neither
    is [df_filtered]. *)
Theorem top_locations_distinct_present (df : DataFrame) :
  NoDup (top_locations sort_values df)
  /\ (forall k, In k (top_locations sort_values df) ->
                exists r, In r df /\ Location r = k)
  /\ (top_locations sort_values df <> [] -> df_filtered sort_values df <> []).
Proof.
  assert (Hrow : forall k, In k (top_locations sort_values df) ->
                           exists r, In r df /\ Location r = k).
  { intros k Hk. apply top_locations_incl, in_map_iff in Hk.
    destruct Hk as [r [E Hr]]. exists r. split; assumption. }
  split; [|split].
  - unfold top_locations, index, tail. rewrite <- skipn_map.
    apply skipn_NoDup, location_totals_index_NoDup.
  - exact Hrow.
  - intros Hne Hnil.
    destruct (top_locations sort_values df) as [|k t] eqn:E; [congruence|].
    destruct (Hrow k (or_introl eq_refl)) as [r [Hr Hk]].
    assert (Hin : In r (df_filtered sort_values df)).
    { unfold df_filtered. apply filter_In. split; [exact Hr|].
      apply isin_In. rewrite E, Hk. left. reflexivity. }
    rewrite Hnil in Hin. exact Hin.
Qed.

(** C9, as the script has it.  On a table without rows the guard of line
    896 skips grouping, ranking and filtering: the section shows its
    warning and hands no aggregate to a chart.  (Lines 899-905, were they
    run on such a table, would give empty lists.) *)
Theorem empty_table_warning :
  incident_analysis sort_values [] = Warning "No data available for analysis."
  /\ top_locations sort_values [] = []
  /\ df_filtered sort_values [] = [].
Proof.
  split; [reflexivity|]. split; [|reflexivity].
  unfold top_locations, location_totals.
  change (groupby_sum []) with (@nil (string * Z)).
  rewrite (Permutation_nil (Permutation_sym (proj1 sort_ok []))). reflexivity.
Qed.

End Ranking.

Section AnySort.
Variable sort_values : Series -> Series.


(** C4, as the script has it.  The ranking does not see the order of the
    rows: two inputs with the same rows in different orders get the same
    [location_totals], because the grouping step lists the locations by
    ascending name; a stable sort then ranks equal totals by ascending
    name. *)
Theorem ranking_ignores_row_order (df df' : DataFrame) :
  Permutation df df' ->
  location_totals sort_values df = location_totals sort_values df'
  /\ StronglySorted key_lt (index (groupby_sum df))
  /\ (forall a b,
        In a (map Location df) -> In b (map Location df) ->
        location_count df a = location_count df b ->
        key_lt a b ->
        precedes (index (location_totals stable_sort df)) a b).
Proof.
  intros H. split; [|split].
  - unfold location_totals. rewrite (groupby_sum_perm df df' H). reflexivity.
  - rewrite groupby_sum_index. apply group_keys_StronglySorted.
  - apply stable_sort_ties_by_name.
Qed.

End AnySort.

(** C4, counterexample.  No [sort_values] can rank equal totals in
    first-seen order: [tie_AB] and [tie_BA] hold the same rows, so they get
    the same ranking, and they meet the two locations in opposite orders.
    With the stable sort, [tie_BA] (B first) is ranked A, B; with the
    tie-reversing sort, [tie_AB] (A first) is ranked B, A. *)
Lemma first_seen_order_fails :
  (forall sort_values : Series -> Series, ~ ties_in_first_seen_order sort_values)
  /\ precedes (map Location tie_BA) "B" "A"
  /\ location_count tie_BA "B" = location_count tie_BA "A"
  /\ index (location_totals stable_sort tie_BA) = ["A"; "B"]
  /\ index (location_totals tie_reversing_sort tie_AB) = ["B"; "A"].
Proof.
  split; [|split; [|split; [|split]]].
  - intros sv H.
    assert (H1 : precedes (index (location_totals sv tie_AB)) "A" "B").
    { apply H; simpl; auto. unfold precedes. simpl. lia. }
    assert (H2 : precedes (index (location_totals sv tie_BA)) "B" "A").
    { apply H; simpl; auto. unfold precedes. simpl. lia. }
    assert (E : location_totals sv tie_BA = location_totals sv tie_AB).
    { unfold location_totals. reflexivity. }
    rewrite E in H2. unfold precedes in H1, H2. lia.
  - unfold precedes. simpl. lia.
  - reflexivity.
  - reflexivity.
  - reflexivity.
Qed.

(** The scenario of the specification, with the stable sort: totals A 5
    and B 10, top set A, B, grand total 15, all three rows kept. *)
Example scenario_analysis :
  groupby_sum scenario = [("A", 5); ("B", 10)]
  /\ incident_analysis stable_sort scenario
     = Chart {| topLocations := ["A"; "B"];
                filteredRecords := scenario;
                grandTotal := 15 |}.
Proof.
  split; reflexivity.
Qed.

(** Twenty-one locations: the one with the smallest total is dropped from
    the chart and still counted in the title. *)
Example streets_analysis :
  length (top_locations stable_sort streets) = 20%nat
  /\ map Location (df_discarded stable_sort streets) = ["A"]
  /\ Zsum (map Count (df_filtered stable_sort streets)) = 230
  /\ grand_total streets = 231.
Proof.
  repeat split.
Qed.

(** C9, counterexample.  With an empty table section 8 returns no
    aggregate at all, empty or not. *)
Lemma empty_table_no_aggregate :
  incident_analysis stable_sort [] = Warning "No data available for analysis."
  /\ (forall (sort_values : Series -> Series) (a : Aggregate),
        incident_analysis sort_values [] <> Chart a).
Proof.
  split; [reflexivity|]. intros sv a. simpl. discriminate.
Qed.

End IncidentProofs.

(** ** Section 7: the commodity table and the reveal flag *)

Module ImportProofs.
Import Pandas Imports PandasFacts.

(** The two instances meet the contract. *)
Lemma stable_sort_descending : sorts_descending stable_sort.
Proof.
  split; intros t.
  - apply isort_perm.
  - apply isort_sorted; unfold value_ge; intros x y H.
    + apply Qle_bool_iff. exact H.
    + apply Qlt_le_weak, Qnot_le_lt. intros Hle.
      apply Qle_bool_iff in Hle. congruence.
Qed.


Lemma value_ge_trans (a b c : CommodityRow) :
  value_ge a b -> value_ge b c -> value_ge a c.
Proof.
  unfold value_ge. intros H1 H2. exact (Qle_trans _ _ _ H2 H1).
Qed.

(** A row whose value no other row of the table reaches heads every
    descending arrangement of the table. *)
Lemma largest_row_first (t out : list CommodityRow) (m : CommodityRow) :
  Permutation out t -> Sorted value_ge out ->
  In m t -> (forall r, In r t -> value_ge r m -> r = m) ->
  hd_error out = Some m.
Proof.
  intros Hp Hs Hm Hmax.
  apply Sorted_StronglySorted in Hs; [|intros a b c; apply value_ge_trans].
  apply (Permutation_in _ (Permutation_sym Hp)) in Hm.
  destruct out as [|h rest]; [contradiction|]. simpl. f_equal.
  destruct Hm as [E|Hm]; [exact E|].
  apply Hmax.
  - apply (Permutation_in _ Hp). left. reflexivity.
  - inversion Hs as [|? ? _ Hall]; subst.
    rewrite Forall_forall in Hall. apply Hall, Hm.
Qed.

(** Decides [value_ge r m] for a listed row [r]: equal rows, or values the
    other way round. *)
Ltac listed_row H :=
  simpl in H;
  repeat (destruct H as [H|H]; [subst|]);
  try contradiction;
  first [ reflexivity
        | intros Hge; exfalso; unfold value_ge, Qle in Hge; simpl in Hge; lia ].

Section Table.
Variable sort_values : list CommodityRow -> list CommodityRow.
Hypothesis sort_ok : sorts_descending sort_values.

Lemma df_imports_perm (revealed : bool) :
  Permutation (df_imports sort_values revealed)
              (if revealed then import_data ++ [new_row] else import_data).
Proof.
  apply (proj1 sort_ok).
Qed.

Lemma df_imports_illegal_rows (revealed : bool) :
  filter is_illegal (df_imports sort_values revealed)
  = if revealed then [new_row] else [].
Proof.
  pose proof (filter_perm is_illegal _ _ (df_imports_perm revealed)) as H.
  destruct revealed; simpl in H.
  - apply Permutation_length_1_inv, Permutation_sym, H.
  - apply Permutation_nil, Permutation_sym, H.
Qed.

(** C6.  Without the flag the table has 10 rows, all of them legal; with
    the flag it has 11 rows, of which exactly one is illegal: "Illicit
    Drugs", valued 9.4. *)
Theorem df_imports_rows :
  length (df_imports sort_values false) = 10%nat
  /\ Forall (fun r => Type_ r = Legal) (df_imports sort_values false)
  /\ length (df_imports sort_values true) = 11%nat
  /\ filter is_illegal (df_imports sort_values true)
     = [ {| Commodity := "Illicit Drugs"; Value := 9.4; Type_ := Illegal |} ].
Proof.
  split; [|split; [|split]].
  - rewrite (Permutation_length (df_imports_perm false)). reflexivity.
  - apply Forall_forall. intros r Hr.
    apply (Permutation_in _ (df_imports_perm false)) in Hr.
    simpl in Hr. repeat (destruct Hr as [Hr|Hr]; [subst; reflexivity|]).
    contradiction.
  - rewrite (Permutation_length (df_imports_perm true)). reflexivity.
  - apply (df_imports_illegal_rows true).
Qed.



(** C8.  The flag starts false; a press of the reveal button leaves it
    true from either state, and a second press changes neither the flag
    nor the table; a press of the reset button leaves it false; after
    reveal, reset, reveal the page shows the table of the first reveal:
    11 rows, the illicit row once, no commodity twice. *)
Theorem reveal_flag_cycle :
  init_state None = false
  /\ snd (session sort_values []) = Some false
  /\ (forall ss, snd (interact sort_values ss (Some RevealButton)) = Some true)
  /\ (forall ss,
        interact sort_values
          (snd (interact sort_values ss (Some RevealButton))) (Some RevealButton)
        = interact sort_values ss (Some RevealButton))
  /\ (forall ss, snd (interact sort_values ss (Some ResetButton)) = Some false)
  /\ session sort_values [RevealButton; ResetButton; RevealButton]
     = session sort_values [RevealButton]
  /\ fst (session sort_values [RevealButton; ResetButton; RevealButton])
     = df_imports sort_values true
  /\ length (fst (session sort_values [RevealButton; ResetButton; RevealButton]))
     = 11%nat
  /\ filter is_illegal
       (fst (session sort_values [RevealButton; ResetButton; RevealButton]))
     = [new_row]
  /\ NoDup (map Commodity
       (fst (session sort_values [RevealButton; ResetButton; RevealButton]))).
Proof.
  assert (Hreveal : forall ss, interact sort_values ss (Some RevealButton)
                               = (df_imports sort_values true, Some true)).
  { intros [[|]|]; reflexivity. }
  assert (Hreset : forall ss, interact sort_values ss (Some ResetButton)
                              = (df_imports sort_values false, Some false)).
  { intros [[|]|]; reflexivity. }
  assert (Hsession : session sort_values [RevealButton; ResetButton; RevealButton]
                     = (df_imports sort_values true, Some true)).
  { unfold session. simpl. apply Hreveal. }
  split; [reflexivity|]. split; [reflexivity|].
  split; [intros ss; rewrite Hreveal; reflexivity|].
  split; [intros ss; rewrite !Hreveal; reflexivity|].
  split; [intros ss; rewrite Hreset; reflexivity|].
  split; [rewrite Hsession; unfold session; simpl; symmetry; apply Hreveal|].
  rewrite Hsession. simpl.
  split; [reflexivity|].
  split; [rewrite (Permutation_length (df_imports_perm true)); reflexivity|].
  split; [apply (df_imports_illegal_rows true)|].
  apply (Permutation_NoDup
           (Permutation_sym (Permutation_map Commodity (df_imports_perm true)))).
  simpl. repeat constructor; simpl; intros H;
      repeat (destruct H as [H|H]; [discriminate H|]); exact H.
Qed.

End Table.


End ImportProofs.

(** ** The theorems at sample inputs, with the stable sort *)

Module Samples.
Import Pandas.




(** The same rows in two orders get one ranking. *)
Lemma ranking_of_tie_AB_and_tie_BA :
  Permutation Incidents.tie_AB Incidents.tie_BA
  /\ (Incidents.location_totals Incidents.stable_sort Incidents.tie_AB
      = Incidents.location_totals Incidents.stable_sort Incidents.tie_BA
      /\ StronglySorted key_lt (index (Incidents.groupby_sum Incidents.tie_AB))
      /\ (forall a b,
            In a (map Incidents.Location Incidents.tie_AB) ->
            In b (map Incidents.Location Incidents.tie_AB) ->
            Incidents.location_count Incidents.tie_AB a
            = Incidents.location_count Incidents.tie_AB b ->
            key_lt a b ->
            precedes
              (index (Incidents.location_totals Incidents.stable_sort Incidents.tie_AB))
              a b)).
Proof.
  assert (H : Permutation Incidents.tie_AB Incidents.tie_BA) by apply perm_swap.
  split.
  - exact H.
  - exact (IncidentProofs.ranking_ignores_row_order
             Incidents.stable_sort Incidents.tie_AB Incidents.tie_BA H).
Defined.

(** The empty table, with the stable sort. *)
Lemma empty_table_with_stable_sort :
  Incidents.incident_analysis Incidents.stable_sort []
  = Incidents.Warning "No data available for analysis."
  /\ Incidents.top_locations Incidents.stable_sort [] = []
  /\ Incidents.df_filtered Incidents.stable_sort [] = [].
Proof.
  exact (IncidentProofs.empty_table_warning
           Incidents.stable_sort IncidentProofs.stable_sort_ascending).
Defined.

(** The top set of the twenty-one locations. *)
Lemma top_locations_of_streets_distinct :
  NoDup (Incidents.top_locations Incidents.stable_sort Incidents.streets)
  /\ (forall k,
        In k (Incidents.top_locations Incidents.stable_sort Incidents.streets) ->
        exists r, In r Incidents.streets /\ Incidents.Location r = k)
  /\ (Incidents.top_locations Incidents.stable_sort Incidents.streets <> [] ->
      Incidents.df_filtered Incidents.stable_sort Incidents.streets <> []).
Proof.
  exact (IncidentProofs.top_locations_distinct_present
           Incidents.stable_sort IncidentProofs.stable_sort_ascending
           Incidents.streets).
Defined.

(** The commodity table with the stable sort. *)
Lemma df_imports_rows_stable :
  length (Imports.df_imports Imports.stable_sort false) = 10%nat
  /\ Forall (fun r => Imports.Type_ r = Imports.Legal)
            (Imports.df_imports Imports.stable_sort false)
  /\ length (Imports.df_imports Imports.stable_sort true) = 11%nat
  /\ filter Imports.is_illegal (Imports.df_imports Imports.stable_sort true)
     = [ {| Imports.Commodity := "Illicit Drugs"; Imports.Value := 9.4;
            Imports.Type_ := Imports.Illegal |} ].
Proof.
  exact (ImportProofs.df_imports_rows
           Imports.stable_sort ImportProofs.stable_sort_descending).
Defined.


Lemma reveal_flag_cycle_stable :
  Imports.session Imports.stable_sort
    [Imports.RevealButton; Imports.ResetButton; Imports.RevealButton]
  = Imports.session Imports.stable_sort [Imports.RevealButton]
  /\ snd (Imports.session Imports.stable_sort
            [Imports.RevealButton; Imports.ResetButton])
     = Some false.
Proof.
  pose proof (ImportProofs.reveal_flag_cycle
                Imports.stable_sort ImportProofs.stable_sort_descending) as H.
  split.
  - apply H.
  - reflexivity.
Defined.

End Samples.

(** ** Section 8: further properties of ranking and filtering *)

Module IncidentExtras.
Import Pandas Incidents PandasFacts KeyFacts GroupingFacts IncidentProofs.


(** Filtering rows on their location either keeps all the rows of a
    location or none of them. *)
Lemma rows_at_filter (g : string -> bool) (df : DataFrame) (k : string) :
  rows_at (filter (fun r => g (Location r)) df) k
  = if g k then rows_at df k else [].
Proof.
  unfold rows_at. induction df as [|r df IH]; simpl.
  - destruct (g k); reflexivity.
  - destruct (String.eqb_spec (Location r) k) as [E|E].
    + rewrite E. destruct (g k); simpl.
      * rewrite E, String.eqb_refl, IH. reflexivity.
      * exact IH.
    + destruct (g (Location r)); simpl.
      * apply String.eqb_neq in E. rewrite E. exact IH.
      * exact IH.
Qed.


Section AnySort.
Variable sort_values : Series -> Series.

Lemma rows_at_df_filtered (df : DataFrame) (k : string) :
  rows_at (df_filtered sort_values df) k
  = if isin (top_locations sort_values df) k then rows_at df k else [].
Proof.
  unfold df_filtered. apply rows_at_filter.
Qed.

Lemma top_locations_perm_eq (df df' : DataFrame) :
  Permutation df df' ->
  top_locations sort_values df = top_locations sort_values df'.
Proof.
  intros H. unfold top_locations, location_totals.
  rewrite (groupby_sum_perm df df' H). reflexivity.
Qed.

(** The order of the rows of [data.csv] changes neither the location axis
    nor the title, and the chart gets the same rows. *)
Theorem analysis_ignores_row_order (df df' : DataFrame) :
  Permutation df df' ->
  top_locations sort_values df = top_locations sort_values df'
  /\ grand_total df = grand_total df'
  /\ Permutation (df_filtered sort_values df) (df_filtered sort_values df').
Proof.
  intros H. split; [|split].
  - apply top_locations_perm_eq, H.
  - unfold grand_total. apply Zsum_perm, Permutation_map, H.
  - unfold df_filtered. rewrite (top_locations_perm_eq df df' H).
    apply filter_perm, H.
Qed.


End AnySort.

Section Ranking.
Variable sort_values : Series -> Series.
Hypothesis sort_ok : sorts_ascending sort_values.


(** The chart draws every kept location in full: all rows of a location of
    [top_locations] reach the chart, no row of another location does, and
    the locations of the rows drawn are exactly those of the axis. *)
Theorem kept_locations_keep_all_rows (df : DataFrame) (k : string) :
  (In k (top_locations sort_values df) ->
   rows_at (df_filtered sort_values df) k = rows_at df k)
  /\ (~ In k (top_locations sort_values df) ->
      rows_at (df_filtered sort_values df) k = [])
  /\ (In k (map Location (df_filtered sort_values df))
      <-> In k (top_locations sort_values df)).
Proof.
  split; [|split].
  - intros Hk. rewrite rows_at_df_filtered.
    apply isin_In in Hk. rewrite Hk. reflexivity.
  - intros Hk. rewrite rows_at_df_filtered.
    destruct (isin (top_locations sort_values df) k) eqn:E; [|reflexivity].
    exfalso. apply Hk, isin_In, E.
  - split.
    + intros H. apply in_map_iff in H. destruct H as [r [E Hr]].
      unfold df_filtered in Hr. apply filter_In in Hr.
      rewrite <- E. apply isin_In, Hr.
    + intros H.
      pose proof (top_locations_incl sort_values sort_ok df k H) as Hl.
      apply in_map_iff in Hl. destruct Hl as [r [E Hr]].
      apply in_map_iff. exists r. split; [exact E|].
      unfold df_filtered. apply filter_In. split; [exact Hr|].
      apply isin_In. rewrite E. exact H.
Qed.

Lemma top_locations_NoDup (df : DataFrame) :
  NoDup (top_locations sort_values df).
Proof.
  unfold top_locations, index, tail. rewrite <- skipn_map.
  apply skipn_NoDup, (location_totals_index_NoDup sort_values sort_ok).
Qed.

Lemma top_locations_at_most_20 (df : DataFrame) :
  (length (top_locations sort_values df) <= 20)%nat.
Proof.
  unfold top_locations, index. rewrite length_map, tail_length. lia.
Qed.

Lemma df_filtered_locations (df : DataFrame) :
  incl (map Location (df_filtered sort_values df)) (top_locations sort_values df).
Proof.
  intros k H. apply in_map_iff in H. destruct H as [r [E Hr]].
  unfold df_filtered in Hr. apply filter_In in Hr.
  rewrite <- E. apply isin_In, Hr.
Qed.

Lemma df_filtered_nunique (df : DataFrame) :
  (nunique (map Location (df_filtered sort_values df)) <= 20)%nat.
Proof.
  unfold nunique.
  apply Nat.le_trans with (length (top_locations sort_values df)).
  - apply NoDup_incl_length; [apply NoDup_nodup|].
    intros k Hk. apply nodup_In in Hk. apply df_filtered_locations, Hk.
  - apply top_locations_at_most_20.
Qed.

(** Running the aggregation on its own output changes nothing: the rows
    are kept as they are, and the location axis names the same locations. *)
Theorem df_filtered_idempotent (df : DataFrame) :
  df_filtered sort_values (df_filtered sort_values df)
  = df_filtered sort_values df
  /\ Permutation (top_locations sort_values (df_filtered sort_values df))
                 (top_locations sort_values df).
Proof.
  split.
  - unfold df_filtered at 1. apply filter_all. intros r Hr.
    apply isin_In, (top_locations_all sort_values sort_ok).
    + apply df_filtered_nunique.
    + apply in_map, Hr.
  - apply NoDup_Permutation; try apply top_locations_NoDup.
    intros k. split.
    + intros H. apply df_filtered_locations.
      apply (top_locations_incl sort_values sort_ok), H.
    + intros H. apply (top_locations_all sort_values sort_ok).
      * apply df_filtered_nunique.
      * pose proof (top_locations_incl sort_values sort_ok df k H) as Hl.
        apply in_map_iff in Hl. destruct Hl as [r [E Hr]].
        apply in_map_iff. exists r. split; [exact E|].
        unfold df_filtered. apply filter_In. split; [exact Hr|].
        apply isin_In. rewrite E. exact H.
Qed.


End Ranking.

End IncidentExtras.

(** ** Section 7: further properties of the table and the flag *)

Module ImportExtras.
Import Pandas Imports PandasFacts ImportProofs.

Section AnySort.
Variable sort_values : list CommodityRow -> list CommodityRow.

Lemma interact_press (ss : session_state) (b : Button) :
  interact sort_values ss (Some b)
  = match b with
    | RevealButton => (df_imports sort_values true, Some true)
    | ResetButton => (df_imports sort_values false, Some false)
    end.
Proof.
  destruct b, ss as [[|]|]; reflexivity.
Qed.

Lemma session_snoc (clicks : list Button) (b : Button) :
  session sort_values (clicks ++ [b])
  = interact sort_values (snd (session sort_values clicks)) (Some b).
Proof.
  unfold session. rewrite fold_left_app. reflexivity.
Qed.

(** However long the session, the page shows the table of the last button
    pressed (of a fresh session when none was): presses leave nothing
    behind but the flag. *)
Theorem session_last_press (clicks : list Button) :
  session sort_values clicks
  = match last clicks ResetButton with
    | RevealButton => (df_imports sort_values true, Some true)
    | ResetButton => (df_imports sort_values false, Some false)
    end.
Proof.
  destruct clicks as [|b0 l] using rev_ind.
  - reflexivity.
  - rewrite session_snoc, last_last. apply interact_press.
Qed.

End AnySort.

Section Table.
Variable sort_values : list CommodityRow -> list CommodityRow.
Hypothesis sort_ok : sorts_descending sort_values.

(** Revealing puts the illicit row in front of the legal rows and changes
    nothing else: the rest of the table holds the rows of the table
    without the flag, still in descending order. *)
Theorem reveal_adds_one_row :
  exists legal : list CommodityRow,
    df_imports sort_values true = new_row :: legal
    /\ Permutation legal (df_imports sort_values false)
    /\ StronglySorted value_ge legal.
Proof.
  pose proof (df_imports_perm sort_values sort_ok true) as Hp.
  assert (Hhd : hd_error (df_imports sort_values true) = Some new_row).
  { apply (largest_row_first (import_data ++ [new_row])).
    - exact Hp.
    - apply (proj2 sort_ok).
    - simpl. tauto.
    - intros r Hr. listed_row Hr. }
  assert (Hs : StronglySorted value_ge (df_imports sort_values true)).
  { apply Sorted_StronglySorted; [intros a b c; apply value_ge_trans|].
    apply (proj2 sort_ok). }
  destruct (df_imports sort_values true) as [|h legal]; [discriminate|].
  simpl in Hhd. injection Hhd as ->.
  exists legal. split; [reflexivity|]. split.
  - apply Permutation_cons_app_inv in Hp. rewrite app_nil_r in Hp.
    apply (perm_trans Hp).
    apply Permutation_sym, (df_imports_perm sort_values sort_ok false).
  - inversion Hs; assumption.
Qed.

End Table.

End ImportExtras.

(** ** Start of the script: properties *)

Module AssetProofs.
Import Pandas PandasFacts Assets.

Lemma filter_nil_iff {A : Type} (g : A -> bool) (l : list A) :
  filter g l = [] <-> forall x, In x l -> g x = false.
Proof.
  induction l as [|a l IH]; simpl.
  - split; [intros _ x [] | reflexivity].
  - destruct (g a) eqn:G.
    + split; [discriminate|]. intros H.
      rewrite (H a (or_introl eq_refl)) in G. discriminate.
    + rewrite IH. split.
      * intros H x [<-|Hx]; [exact G | apply H, Hx].
      * intros H x Hx. apply H. right. exact Hx.
Qed.

Lemma path_exists_false (fs : FileSystem) (f : string) :
  negb (path_exists fs f) = true <-> fs f = None.
Proof.
  unfold path_exists. destruct (fs f); simpl; split; congruence.
Qed.

Lemma path_exists_true (fs : FileSystem) (f : string) :
  path_exists fs f = true <-> fs f <> None.
Proof.
  unfold path_exists. destruct (fs f); simpl; split; congruence.
Qed.

(** The images missing for a file system. *)
Lemma missing_images_none (fs : FileSystem) :
  filter (fun f => negb (path_exists fs f)) required_images = []
  <-> forall f, In f required_images -> fs f <> None.
Proof.
  rewrite filter_nil_iff. split; intros H f Hf.
  - apply path_exists_true. specialize (H f Hf).
    destruct (path_exists fs f); [reflexivity | discriminate].
  - specialize (H f Hf). apply path_exists_true in H. rewrite H. reflexivity.
Qed.

(** The check stops exactly when [data.csv] is missing; it passes without
    a warning exactly when [data.csv] and the eight numbered images are
    there, and then every image the script draws is there. *)
Theorem integrity_verdict (fs : FileSystem) :
  ((exists e, check_system_integrity fs = Stopped e) <-> fs "data.csv" = None)
  /\ (check_system_integrity fs = Passed None
      <-> fs "data.csv" <> None
          /\ forall f, In f required_images -> fs f <> None)
  /\ (check_system_integrity fs = Passed None ->
      forall f, In f displayed_images -> path_exists fs f = true).
Proof.
  assert (Hnone : check_system_integrity fs = Passed None
                  <-> fs "data.csv" <> None
                      /\ forall f, In f required_images -> fs f <> None).
  { unfold check_system_integrity, required_data. simpl filter at 1.
    unfold path_exists at 1.
    destruct (fs "data.csv") as [d|]; simpl negb; cbv iota.
    - destruct (filter (fun f => negb (path_exists fs f)) required_images)
        as [|m ms] eqn:E.
      + split; [|reflexivity]. intros _. split; [discriminate|].
        apply missing_images_none, E.
      + split; [discriminate|]. intros [_ H].
        apply missing_images_none in H. congruence.
    - split; [discriminate|]. intros [H _]. congruence. }
  split; [|split].
  - unfold check_system_integrity, required_data. simpl filter at 1.
    unfold path_exists at 1.
    destruct (fs "data.csv") as [d|]; simpl negb; cbv iota.
    + split; [|discriminate]. intros [e H].
      destruct (filter (fun f => negb (path_exists fs f)) required_images);
        discriminate.
    + split; [reflexivity|]. intros _. eexists. reflexivity.
  - exact Hnone.
  - intros H f Hf. apply Hnone in H. destruct H as [_ H].
    apply path_exists_true, H.
    simpl in Hf. simpl.
    repeat (destruct Hf as [Hf|Hf]; [subst f; tauto|]). contradiction.
Qed.

(** The text of the warning for a list of missing images. *)
Lemma warning_text (fs : FileSystem) (w : string) :
  check_system_integrity fs = Passed (Some w) ->
  w = ("⚠️ **Asset Warning:** Some visual assets are missing: `"
       ++ String.concat ", "
            (filter (fun f => negb (path_exists fs f)) required_images)
       ++ "`. Placeholders will be used.")%string
  /\ filter (fun f => negb (path_exists fs f)) required_images <> [].
Proof.
  unfold check_system_integrity.
  destruct (filter (fun f => negb (path_exists fs f)) required_data);
    [|discriminate].
  destruct (filter (fun f => negb (path_exists fs f)) required_images)
    as [|m ms]; [discriminate|].
  intros H. injection H as <-. split; [reflexivity | discriminate].
Qed.

(** A warning names the numbered images that are missing, each once, in
    the order of their numbers, and nothing else. *)
Theorem integrity_warning_names_missing (fs : FileSystem) (w : string) :
  check_system_integrity fs = Passed (Some w) ->
  exists missing : list string,
    w = ("⚠️ **Asset Warning:** Some visual assets are missing: `"
         ++ String.concat ", " missing
         ++ "`. Placeholders will be used.")%string
    /\ missing <> []
    /\ subsequence missing required_images
    /\ (forall f, In f missing <-> In f required_images /\ fs f = None).
Proof.
  intros H. apply warning_text in H. destruct H as [Hw Hne].
  exists (filter (fun f => negb (path_exists fs f)) required_images).
  split; [exact Hw|]. split; [exact Hne|]. split.
  - apply subsequence_filter.
  - intros f. rewrite filter_In, path_exists_false. reflexivity.
Qed.

Lemma check_agree (fs fs' : FileSystem) :
  (forall f, In f (required_data ++ required_images) -> fs f = fs' f) ->
  check_system_integrity fs = check_system_integrity fs'.
Proof.
  intros H. unfold check_system_integrity.
  assert (E : forall l, incl l (required_data ++ required_images) ->
              filter (fun f => negb (path_exists fs f)) l
              = filter (fun f => negb (path_exists fs' f)) l).
  { intros l Hl. apply filter_ext_in. intros f Hf.
    unfold path_exists. rewrite (H f (Hl f Hf)). reflexivity. }
  rewrite (E required_data) by (apply incl_appl, incl_refl).
  rewrite (E required_images) by (apply incl_appr, incl_refl).
  reflexivity.
Qed.

(** The check reads nine files and no other.  ["ju.png"], which line 685
    opens, is not one of them: taking it away leaves the verdict of the
    check as it was, and the call of line 685 then raises. *)
Theorem integrity_blind_spot :
  (forall fs fs' : FileSystem,
     (forall f, In f (required_data ++ required_images) -> fs f = fs' f) ->
     check_system_integrity fs = check_system_integrity fs')
  /\ (forall fs : FileSystem,
        check_system_integrity (fs_without "ju.png" fs)
        = check_system_integrity fs
        /\ get_img_as_base64 (fs_without "ju.png" fs) "ju.png"
           = Raised "FileNotFoundError").
Proof.
  split; [exact check_agree|]. intros fs. split.
  - apply check_agree. intros f Hf. unfold fs_without.
    simpl in Hf. repeat (destruct Hf as [Hf|Hf]; [subst f; reflexivity|]).
    contradiction.
  - reflexivity.
Qed.

(** *** Base64 *)

(** Lists are built three elements at a time, with zero, one or two left
    at the end. *)
Lemma list_ind3 {A : Type} (P : list A -> Prop) :
  P [] -> (forall a, P [a]) -> (forall a b, P [a; b]) ->
  (forall a b c l, P l -> P (a :: b :: c :: l)) ->
  forall l, P l.
Proof.
  intros H0 H1 H2 H3 l.
  assert (H : P l /\ (forall a, P (a :: l)) /\ (forall a b, P (a :: b :: l))).
  { induction l as [|x l [IH0 [IH1 IH2]]].
    - repeat split; auto.
    - split; [apply IH1|]. split; [intros a; apply IH2|].
      intros a b. apply H3, IH0. }
  apply H.
Qed.

Lemma b64_alphabet_length : length b64_alphabet = 64%nat.
Proof.
  reflexivity.
Qed.

Lemma b64_char_In (n k : N) : In (b64_char (sextet n k)) b64_alphabet.
Proof.
  unfold b64_char. apply nth_In. rewrite b64_alphabet_length.
  assert (H : (sextet n k < 64)%N) by (unfold sextet; apply N.mod_lt; discriminate).
  lia.
Qed.

Lemma b64_alphabet_safe :
  Forall (fun c => breaks_attribute c = false) b64_alphabet.
Proof.
  unfold b64_alphabet. simpl. repeat constructor.
Qed.

Lemma b64_char_safe (n k : N) : breaks_attribute (b64_char (sextet n k)) = false.
Proof.
  pose proof b64_alphabet_safe as H. rewrite Forall_forall in H.
  apply H, b64_char_In.
Qed.

Lemma b64encode_length (data : bytes) :
  length (b64encode data) = (4 * ((length data + 2) / 3))%nat.
Proof.
  induction data as [|a|a b|a b c rest IH] using list_ind3; try reflexivity.
  change (b64encode (a :: b :: c :: rest))
    with (b64_char (sextet ((Byte.to_N a * 256 + Byte.to_N b) * 256 + Byte.to_N c) 3)
          :: b64_char (sextet ((Byte.to_N a * 256 + Byte.to_N b) * 256 + Byte.to_N c) 2)
          :: b64_char (sextet ((Byte.to_N a * 256 + Byte.to_N b) * 256 + Byte.to_N c) 1)
          :: b64_char (sextet ((Byte.to_N a * 256 + Byte.to_N b) * 256 + Byte.to_N c) 0)
          :: b64encode rest).
  cbn [length]. rewrite IH.
  replace (S (S (S (length rest))) + 2)%nat with (length rest + 2 + 1 * 3)%nat by lia.
  rewrite Nat.div_add by discriminate. lia.
Qed.

Lemma b64encode_safe (data : bytes) :
  Forall (fun c => breaks_attribute c = false) (b64encode data).
Proof.
  induction data as [|a|a b|a b c rest IH] using list_ind3.
  - constructor.
  - cbn [b64encode]. repeat constructor; apply b64_char_safe.
  - cbn [b64encode]. repeat constructor; apply b64_char_safe.
  - change (b64encode (a :: b :: c :: rest))
      with (b64_char (sextet ((Byte.to_N a * 256 + Byte.to_N b) * 256 + Byte.to_N c) 3)
            :: b64_char (sextet ((Byte.to_N a * 256 + Byte.to_N b) * 256 + Byte.to_N c) 2)
            :: b64_char (sextet ((Byte.to_N a * 256 + Byte.to_N b) * 256 + Byte.to_N c) 1)
            :: b64_char (sextet ((Byte.to_N a * 256 + Byte.to_N b) * 256 + Byte.to_N c) 0)
            :: b64encode rest).
    repeat (constructor; [apply b64_char_safe|]). exact IH.
Qed.

(** The call of line 685 raises exactly when the file is missing.
    Otherwise it returns four characters for every three bytes of the
    file, rounded up, and none of them can end or break the attribute the
    text is put into, whatever the file holds. *)
Theorem get_img_as_base64_outcomes (fs : FileSystem) (file_path : string) :
  (fs file_path = None ->
   get_img_as_base64 fs file_path = Raised "FileNotFoundError")
  /\ (forall data, fs file_path = Some data ->
        exists s : string,
          get_img_as_base64 fs file_path = Returned s
          /\ String.length s = (4 * ((length data + 2) / 3))%nat
          /\ Forall (fun c => breaks_attribute c = false)
                    (list_ascii_of_string s)).
Proof.
  unfold get_img_as_base64. split.
  - intros ->. reflexivity.
  - intros data ->. eexists. split; [reflexivity|].
    rewrite list_ascii_of_string_of_list_ascii. split.
    + rewrite <- b64encode_length.
      generalize (b64encode data). intros l.
      induction l as [|c l IH]; simpl; congruence.
    + apply b64encode_safe.
Qed.

(** *** Base64: the text determines the bytes *)

Lemma b64_index_char (i : N) :
  (i < 64)%N -> b64_index (b64_char i) = Some i.
Proof.
  intros H.
  assert (E : exists n, (n < 64)%nat /\ i = N.of_nat n)
    by (exists (N.to_nat i); lia).
  destruct E as [n [Hn ->]].
  do 64 (destruct n as [|n]; [reflexivity|]). lia.
Qed.

Lemma sextet_lt (n k : N) : (sextet n k < 64)%N.
Proof.
  unfold sextet. apply N.mod_lt. discriminate.
Qed.

Lemma b64_index_sextet (n k : N) :
  b64_index (b64_char (sextet n k)) = Some (sextet n k).
Proof.
  apply b64_index_char, sextet_lt.
Qed.

(** Splitting 24, 18 or 12 bits into groups of six and joining them again
    gives the bytes back. *)
Lemma sextets_of_3 (a b c : N) :
  (a <= 255 -> b <= 255 -> c <= 255 ->
   ((((sextet ((a * 256 + b) * 256 + c) 3 * 64
       + sextet ((a * 256 + b) * 256 + c) 2) * 64
      + sextet ((a * 256 + b) * 256 + c) 1) * 64
     + sextet ((a * 256 + b) * 256 + c) 0)
    = (a * 256 + b) * 256 + c))%N.
Proof.
  intros Ha Hb Hc. unfold sextet.
  change (64 ^ 3)%N with 262144%N. change (64 ^ 2)%N with 4096%N.
  change (64 ^ 1)%N with 64%N. change (64 ^ 0)%N with 1%N.
  zify. Z.to_euclidean_division_equations. lia.
Qed.

Lemma sextets_of_2 (a b : N) :
  (a <= 255 -> b <= 255 ->
   ((sextet ((a * 256 + b) * 4) 2 * 64 + sextet ((a * 256 + b) * 4) 1) * 64
    + sextet ((a * 256 + b) * 4) 0) / 4
   = a * 256 + b)%N.
Proof.
  intros Ha Hb. unfold sextet.
  change (64 ^ 2)%N with 4096%N.
  change (64 ^ 1)%N with 64%N. change (64 ^ 0)%N with 1%N.
  zify. Z.to_euclidean_division_equations. lia.
Qed.

Lemma sextets_of_1 (a : N) :
  (a <= 255 ->
   (sextet (a * 16) 1 * 64 + sextet (a * 16) 0) / 16 = a)%N.
Proof.
  intros Ha. unfold sextet.
  change (64 ^ 1)%N with 64%N. change (64 ^ 0)%N with 1%N.
  zify. Z.to_euclidean_division_equations. lia.
Qed.

Lemma bytes_of_3 (a b c : Byte.byte) :
  let n := ((Byte.to_N a * 256 + Byte.to_N b) * 256 + Byte.to_N c)%N in
  Byte.of_N (n / 65536) = Some a
  /\ Byte.of_N ((n / 256) mod 256) = Some b
  /\ Byte.of_N (n mod 256) = Some c.
Proof.
  intros n. subst n.
  pose proof (Byte.to_N_bounded a). pose proof (Byte.to_N_bounded b).
  pose proof (Byte.to_N_bounded c).
  split; [|split].
  - rewrite <- (Byte.of_to_N a) at 1. f_equal.
    zify. Z.to_euclidean_division_equations. lia.
  - rewrite <- (Byte.of_to_N b) at 1. f_equal.
    zify. Z.to_euclidean_division_equations. lia.
  - rewrite <- (Byte.of_to_N c) at 1. f_equal.
    zify. Z.to_euclidean_division_equations. lia.
Qed.

Lemma bytes_of_2 (a b : Byte.byte) :
  let n := (Byte.to_N a * 256 + Byte.to_N b)%N in
  Byte.of_N (n / 256) = Some a /\ Byte.of_N (n mod 256) = Some b.
Proof.
  intros n. subst n.
  pose proof (Byte.to_N_bounded a). pose proof (Byte.to_N_bounded b).
  split.
  - rewrite <- (Byte.of_to_N a) at 1. f_equal.
    zify. Z.to_euclidean_division_equations. lia.
  - rewrite <- (Byte.of_to_N b) at 1. f_equal.
    zify. Z.to_euclidean_division_equations. lia.
Qed.

Lemma b64decode_encode (data : bytes) :
  b64decode (b64encode data) = Some data.
Proof.
  induction data as [|a|a b|a b c rest IH] using list_ind3.
  - reflexivity.
  - cbn [b64encode b64decode]. rewrite !b64_index_sextet.
    change (b64_index "="%char) with (@None N). cbv iota.
    rewrite (sextets_of_1 _ (Byte.to_N_bounded a)), Byte.of_to_N.
    reflexivity.
  - cbn [b64encode b64decode]. rewrite !b64_index_sextet.
    change (b64_index "="%char) with (@None N). cbv iota. cbv zeta.
    rewrite (sextets_of_2 _ _ (Byte.to_N_bounded a) (Byte.to_N_bounded b)).
    destruct (bytes_of_2 a b) as [-> ->]. reflexivity.
  - change (b64encode (a :: b :: c :: rest))
      with (b64_char (sextet ((Byte.to_N a * 256 + Byte.to_N b) * 256 + Byte.to_N c) 3)
            :: b64_char (sextet ((Byte.to_N a * 256 + Byte.to_N b) * 256 + Byte.to_N c) 2)
            :: b64_char (sextet ((Byte.to_N a * 256 + Byte.to_N b) * 256 + Byte.to_N c) 1)
            :: b64_char (sextet ((Byte.to_N a * 256 + Byte.to_N b) * 256 + Byte.to_N c) 0)
            :: b64encode rest).
    cbn [b64decode]. rewrite !b64_index_sextet. cbv iota. cbv zeta.
    rewrite (sextets_of_3 _ _ _ (Byte.to_N_bounded a) (Byte.to_N_bounded b)
               (Byte.to_N_bounded c)).
    destruct (bytes_of_3 a b c) as [-> [-> ->]]. rewrite IH. reflexivity.
Qed.

(** The text that [get_img_as_base64] returns holds the whole file:
    reading it as Base64 gives the bytes of the file back, so two files
    with different contents never give the same text. *)
Theorem get_img_as_base64_lossless (fs : FileSystem) (file_path : string)
  (s : string) :
  get_img_as_base64 fs file_path = Returned s ->
  (exists data,
     fs file_path = Some data
     /\ b64decode (list_ascii_of_string s) = Some data)
  /\ (forall fs' file_path',
        get_img_as_base64 fs' file_path' = Returned s ->
        fs' file_path' = fs file_path).
Proof.
  assert (H : forall g p t, get_img_as_base64 g p = Returned t ->
              exists data, g p = Some data
                           /\ b64decode (list_ascii_of_string t) = Some data).
  { intros g p t. unfold get_img_as_base64.
    destruct (g p) as [data|]; [|discriminate].
    intros E. injection E as <-. exists data. split; [reflexivity|].
    rewrite list_ascii_of_string_of_list_ascii. apply b64decode_encode. }
  intros E. split; [apply H, E|].
  intros fs' p' E'. apply H in E. apply H in E'.
  destruct E as [d [-> D]], E' as [d' [-> D']]. congruence.
Qed.


(** *** Images, the cache and the data *)

Section Script.
Variable Image : Type.
Variable Image_open : bytes -> Image + string.
Variable ImageOps_fit : Image -> nat * nat -> Image + string.
Variable read_csv : bytes -> Incidents.DataFrame + string.






End Script.

End AssetProofs.

(** ** The further properties at sample inputs *)

Module ExtraSamples.
Import Pandas PandasFacts.

Lemma row_order_of_tie_AB_and_tie_BA :
  Permutation Incidents.tie_AB Incidents.tie_BA
  /\ (Incidents.top_locations Incidents.stable_sort Incidents.tie_AB
      = Incidents.top_locations Incidents.stable_sort Incidents.tie_BA
      /\ Incidents.grand_total Incidents.tie_AB
         = Incidents.grand_total Incidents.tie_BA
      /\ Permutation
           (Incidents.df_filtered Incidents.stable_sort Incidents.tie_AB)
           (Incidents.df_filtered Incidents.stable_sort Incidents.tie_BA)).
Proof.
  assert (H : Permutation Incidents.tie_AB Incidents.tie_BA) by apply perm_swap.
  split.
  - exact H.
  - exact (IncidentExtras.analysis_ignores_row_order
             Incidents.stable_sort Incidents.tie_AB Incidents.tie_BA H).
Defined.



Lemma kept_rows_of_scenario :
  (In "A" (Incidents.top_locations Incidents.stable_sort Incidents.scenario) ->
   Incidents.rows_at
     (Incidents.df_filtered Incidents.stable_sort Incidents.scenario) "A"
   = Incidents.rows_at Incidents.scenario "A")
  /\ (~ In "A" (Incidents.top_locations Incidents.stable_sort Incidents.scenario) ->
      Incidents.rows_at
        (Incidents.df_filtered Incidents.stable_sort Incidents.scenario) "A"
      = [])
  /\ (In "A" (map Incidents.Location
                (Incidents.df_filtered Incidents.stable_sort Incidents.scenario))
      <-> In "A" (Incidents.top_locations Incidents.stable_sort Incidents.scenario)).
Proof.
  exact (IncidentExtras.kept_locations_keep_all_rows
           Incidents.stable_sort IncidentProofs.stable_sort_ascending
           Incidents.scenario "A").
Defined.

Lemma refiltering_streets :
  Incidents.df_filtered Incidents.stable_sort
    (Incidents.df_filtered Incidents.stable_sort Incidents.streets)
  = Incidents.df_filtered Incidents.stable_sort Incidents.streets
  /\ Permutation
       (Incidents.top_locations Incidents.stable_sort
          (Incidents.df_filtered Incidents.stable_sort Incidents.streets))
       (Incidents.top_locations Incidents.stable_sort Incidents.streets).
Proof.
  exact (IncidentExtras.df_filtered_idempotent
           Incidents.stable_sort IncidentProofs.stable_sort_ascending
           Incidents.streets).
Defined.


Lemma reveal_adds_one_row_stable :
  exists legal : list Imports.CommodityRow,
    Imports.df_imports Imports.stable_sort true = Imports.new_row :: legal
    /\ Permutation legal (Imports.df_imports Imports.stable_sort false)
    /\ StronglySorted Imports.value_ge legal.
Proof.
  exact (ImportExtras.reveal_adds_one_row
           Imports.stable_sort ImportProofs.stable_sort_descending).
Defined.

(** Two numbered images missing: the warning names them in order. *)
Lemma warning_without_3_and_7 :
  exists w : string,
    Assets.check_system_integrity
      (Assets.fs_without "3.png" (Assets.fs_without "7.png" Assets.complete_fs))
    = Assets.Passed (Some w)
    /\ exists missing : list string,
         w = ("⚠️ **Asset Warning:** Some visual assets are missing: `"
              ++ String.concat ", " missing
              ++ "`. Placeholders will be used.")%string
         /\ missing <> []
         /\ subsequence missing Assets.required_images
         /\ (forall f,
               In f missing
               <-> In f Assets.required_images
                   /\ Assets.fs_without "3.png"
                        (Assets.fs_without "7.png" Assets.complete_fs) f = None).
Proof.
  eexists. split.
  - reflexivity.
  - apply (AssetProofs.integrity_warning_names_missing
             (Assets.fs_without "3.png"
                (Assets.fs_without "7.png" Assets.complete_fs))).
    reflexivity.
Defined.

(** The text of a four-byte file decodes to the file. *)
Lemma ju_png_text_lossless :
  exists s : string,
    Assets.get_img_as_base64 Assets.complete_fs "ju.png" = Assets.Returned s
    /\ ((exists data,
           Assets.complete_fs "ju.png" = Some data
           /\ Assets.b64decode (list_ascii_of_string s) = Some data)
        /\ (forall fs' file_path',
              Assets.get_img_as_base64 fs' file_path' = Assets.Returned s ->
              fs' file_path' = Assets.complete_fs "ju.png")).
Proof.
  eexists. split.
  - reflexivity.
  - apply (AssetProofs.get_img_as_base64_lossless Assets.complete_fs "ju.png").
    reflexivity.
Defined.

End ExtraSamples.
